(** * A BigQuery stored-procedure call assembled for an Airflow DAG

    Shallow embedding of [airflow_call_bq_sp.py].  The script has two
    parts: a block of module-level string constants from which a SQL
    [CALL] statement is formatted, and a [with DAG(...)] block in which
    one [BigQueryExecuteQueryOperator] is constructed with that
    statement.

    Python [str] values are [string]s, the list [KEY_COLUMNS] is a
    [list string], f-strings are concatenations of their literal pieces
    and the interpolated values, and [str.join] is [String.concat]. *)

From Stdlib Require Import String Ascii List Bool Arith Lia.
Import ListNotations.

Open Scope string_scope.

(** ** Characters the template relies on *)

Definition LF : ascii := "010"%char.
Definition nl : string := String LF "".

Definition quote_char : ascii := "'"%char.
Definition backtick : ascii := "`"%char.
Definition lbracket : ascii := "["%char.
Definition rbracket : ascii := "]"%char.

(** ** Observations on strings

    Executable predicates used to state what a statement looks like. *)

(** [contains pat s]: [pat] occurs in [s] as a contiguous substring. *)
Fixpoint contains (pat s : string) : bool :=
  prefix pat s ||
  match s with
  | EmptyString => false
  | String _ s' => contains pat s'
  end.

(** [count_sub pat s]: the number of positions of [s] at which [pat]
    starts (overlapping occurrences are all counted). *)
Fixpoint count_sub (pat s : string) : nat :=
  (if prefix pat s then 1 else 0) +
  match s with
  | EmptyString => 0
  | String _ s' => count_sub pat s'
  end.

(** [count_char c s]: how many times the character [c] occurs in [s]. *)
Fixpoint count_char (c : ascii) (s : string) : nat :=
  match s with
  | EmptyString => 0
  | String a s' => (if Ascii.eqb a c then 1 else 0) + count_char c s'
  end.

(** [ends_with pat s]: [pat] is a suffix of [s]. *)
Fixpoint ends_with (pat s : string) : bool :=
  String.eqb s pat ||
  match s with
  | EmptyString => false
  | String _ s' => ends_with pat s'
  end.

(** [until c s]: the text of [s] before the first [c], and the text
    after it; [None] when [c] does not occur. *)
Fixpoint until (c : ascii) (s : string) : option (string * string) :=
  match s with
  | EmptyString => None
  | String a s' =>
      if Ascii.eqb a c then Some (EmptyString, s')
      else match until c s' with
           | Some (u, r) => Some (String a u, r)
           | None => None
           end
  end.

(** [between o c s]: the text enclosed by the first [o] of [s] and the
    first [c] that follows it. *)
Definition between (o c : ascii) (s : string) : option string :=
  match until o s with
  | Some (_, r) =>
      match until c r with
      | Some (u, _) => Some u
      | None => None
      end
  | None => None
  end.

(** ** The statement builder (lines 24-40 of the script) *)

Section Builder.

Variables GCP_PROJECT_ID SP_DATASET SP_NAME : string.
Variables TARGET_TABLE SOURCE_TABLE : string.
Variable KEY_COLUMNS : list string.

(** ["[" + ", ".join([f"'{col}'" for col in KEY_COLUMNS]) + "]"] *)
Definition key_columns_sql_array : string :=
  "[" ++ String.concat ", " (map (fun col => "'" ++ col ++ "'") KEY_COLUMNS) ++ "]".

(** The triple-quoted f-string.  It opens with the line break that
    follows the opening quotes and closes with the one before the
    closing quotes; [{{}}] is the f-string escape for [{}]. *)
Definition sql_call_statement : string :=
  nl ++
  "CALL `" ++ GCP_PROJECT_ID ++ "." ++ SP_DATASET ++ "." ++ SP_NAME ++ "`(" ++ nl ++
  "    '" ++ TARGET_TABLE ++ "',          -- target_table_name STRING" ++ nl ++
  "    '" ++ SOURCE_TABLE ++ "',          -- source_table_name STRING" ++ nl ++
  "    " ++ key_columns_sql_array ++ ",   -- key_columns ARRAY<STRING>" ++ nl ++
  "    NULL                       -- options JSON (using NULL here)" ++ nl ++
  "    -- Or use an empty JSON object: PARSE_JSON('{}')" ++ nl ++
  ");" ++ nl.

End Builder.

(** ** The configuration block (lines 8-22 of the script) *)

Module Script.

Definition GCP_PROJECT_ID : string := "your-gcp-project-id".
Definition GCP_CONN_ID : string := "google_cloud_default".
Definition BQ_LOCATION : string := "US".

Definition SP_DATASET : string := "your_dataset".
Definition SP_NAME : string := "usp_generic_merge".

Definition TARGET_TABLE : string :=
  GCP_PROJECT_ID ++ "." ++ SP_DATASET ++ ".target_customers".
Definition SOURCE_TABLE : string :=
  GCP_PROJECT_ID ++ "." ++ SP_DATASET ++ ".staging_customers".
Definition KEY_COLUMNS : list string := ["customer_id"].

Definition key_columns_sql_array : string :=
  key_columns_sql_array KEY_COLUMNS.

Definition sql_call_statement : string :=
  sql_call_statement GCP_PROJECT_ID SP_DATASET SP_NAME
                     TARGET_TABLE SOURCE_TABLE KEY_COLUMNS.

End Script.

(** ** The builder as a fallible operation

    Evaluating lines 24-40 either yields a [str] or raises.  The
    statements are a list comprehension, a [str.join] and two string
    formattings over [str] values: none of them raises, and the script
    defines no exception of its own.  The script has no variable for the
    options argument either: the fourth argument is the literal text
    [NULL] of the template.  [build_call_statement] gives the script's
    builder the signature of the documented contract; [options] is
    accepted and, as in the script, never read. *)

Inductive BuildError : Type :=
| InvalidArgument
| UnescapedLiteral.

Inductive outcome (A : Type) : Type :=
| Returned (a : A)
| Raised (e : BuildError).

Arguments Returned {A} a.
Arguments Raised {A} e.

(** An options value: a JSON object as its list of members. *)
Definition Options : Type := list (string * string).

Definition build_call_statement
    (project_id dataset procedure_name target_table source_table : string)
    (key_columns : list string) (options : option Options) : outcome string :=
  Returned (sql_call_statement project_id dataset procedure_name
                               target_table source_table key_columns).

(** ** Reading a statement back

    The SQL text without its line comments: split at line breaks, cut
    each line at the first [--], drop surrounding blanks and empty
    lines.  (A [--] inside a quoted literal is cut as well; the
    observation is used on statements whose values have none.) *)

Fixpoint lines_from (cur : string -> string) (s : string) : list string :=
  match s with
  | EmptyString => [cur EmptyString]
  | String a s' =>
      if Ascii.eqb a LF then cur EmptyString :: lines_from (fun r => r) s'
      else lines_from (fun r => cur (String a r)) s'
  end.

Definition lines (s : string) : list string := lines_from (fun r => r) s.

Fixpoint strip_comment (s : string) : string :=
  if prefix "--" s then EmptyString
  else match s with
       | EmptyString => EmptyString
       | String a s' => String a (strip_comment s')
       end.

Fixpoint ltrim (s : string) : string :=
  match s with
  | String a s' => if Ascii.eqb a " "%char then ltrim s' else s
  | EmptyString => EmptyString
  end.

Fixpoint rtrim (s : string) : string :=
  match s with
  | EmptyString => EmptyString
  | String a s' =>
      match rtrim s' with
      | EmptyString => if Ascii.eqb a " "%char then EmptyString else String a EmptyString
      | r => String a r
      end
  end.

Definition trim (s : string) : string := rtrim (ltrim s).

Definition sql_code_lines (stmt : string) : list string :=
  filter (fun l => negb (String.eqb l EmptyString))
         (map (fun l => trim (strip_comment l)) (lines stmt)).

(** The argument in fourth position: the code line that follows the
    [CALL] line and the three lines of the first three arguments. *)
Definition options_argument (stmt : string) : option string :=
  nth_error (sql_code_lines stmt) 4.

(** The documented rendering rule for the options argument, written
    from the contract's words (not from the script): absent gives
    [NULL], an empty structured value gives the JSON-parsing call. *)
Definition documented_options_rendering (options : option Options) : string :=
  match options with
  | None => "NULL"
  | Some _ => "PARSE_JSON('{}')"
  end.

(** *** The array literal

    A reader for a bracketed list of single-quoted elements separated
    by a comma and a space.  The result of [elements InElement] has the
    remainder of the element being read at its head. *)

Inductive array_state : Type :=
| AtStart
| InElement
| AfterElement
| AfterComma
| AfterSpace.

Fixpoint elements (st : array_state) (s : string) : option (list string) :=
  match s with
  | EmptyString =>
      match st with
      | AtStart | AfterElement => Some []
      | _ => None
      end
  | String a r =>
      match st with
      | AtStart | AfterSpace =>
          if Ascii.eqb a quote_char then elements InElement r else None
      | InElement =>
          if Ascii.eqb a quote_char then
            match elements AfterElement r with
            | Some l => Some (EmptyString :: l)
            | None => None
            end
          else
            match elements InElement r with
            | Some (e :: l) => Some (String a e :: l)
            | _ => None
            end
      | AfterElement =>
          if Ascii.eqb a ","%char then elements AfterComma r else None
      | AfterComma =>
          if Ascii.eqb a " "%char then elements AfterSpace r else None
      end
  end.

Definition array_literal_elements (stmt : string) : option (list string) :=
  match between lbracket rbracket stmt with
  | Some body => elements AtStart body
  | None => None
  end.

(** *** Inputs *)

(** Characters of an identifier: letters, digits and the underscore,
    and the hyphen that project identifiers carry. *)
Definition in_range (lo hi c : ascii) : bool :=
  Nat.leb (nat_of_ascii lo) (nat_of_ascii c) &&
  Nat.leb (nat_of_ascii c) (nat_of_ascii hi).

Definition word_char (c : ascii) : bool :=
  in_range "A" "Z" c || in_range "a" "z" c || in_range "0" "9" c ||
  Ascii.eqb c "_".

Definition identifier_char (c : ascii) : bool :=
  word_char c || Ascii.eqb c "-".

Fixpoint all_chars (f : ascii -> bool) (s : string) : bool :=
  match s with
  | EmptyString => true
  | String a s' => f a && all_chars f s'
  end.

(** A non-empty string of identifier characters. *)
Definition identifier (s : string) : bool :=
  negb (String.eqb s "") && all_chars identifier_char s.

(** A table reference: project, dataset and table, each an identifier,
    joined by dots. *)
Definition table_reference (s : string) : bool :=
  match until "."%char s with
  | Some (project, rest) =>
      match until "."%char rest with
      | Some (dataset, table) =>
          identifier project && identifier dataset && identifier table
      | None => false
      end
  | None => false
  end.

(** A key column: not blank, and without a single quote. *)
Definition key_column (s : string) : bool :=
  negb (String.eqb (trim s) "") && Nat.eqb (count_char quote_char s) 0.

(** Valid inputs as the contract words them: project, dataset and
    procedure are non-empty identifiers, the two tables are references
    of the form project.dataset.table, and there is at least one key
    column, each non-blank and without a single quote. *)
Definition valid_input
    (project_id dataset procedure_name target_table source_table : string)
    (key_columns : list string) : Prop :=
  identifier project_id = true /\ identifier dataset = true /\
  identifier procedure_name = true /\
  table_reference target_table = true /\ table_reference source_table = true /\
  key_columns <> [] /\ Forall (fun col => key_column col = true) key_columns.

(** A value that brings none of the statement's own markers with it. *)
Definition marker_free (s : string) : Prop :=
  count_sub "CALL" s = 0 /\ count_char backtick s = 0 /\
  count_char lbracket s = 0 /\ count_char rbracket s = 0.

Definition quote_free (s : string) : Prop := count_char quote_char s = 0.

(** *** The statement as SQL tokens

    A scanner for the text of a statement: words (runs of letters,
    digits and underscores), names between back quotes, literals
    between single quotes, and single punctuation characters; blanks
    and line breaks separate, and a line comment runs from [--] to the
    end of its line.  A name or a literal ends at the next back quote
    or single quote; there are no escape sequences.  In the modes
    [InWord], [InName] and [InLiteral] the head of the result is the
    token being read, holding what remains of it. *)

Inductive token : Type :=
| Word (w : string)
| Name (s : string)
| Literal (s : string)
| Punct (c : ascii).

Inductive scan_mode : Type := Code | InWord | InName | InLiteral | InComment.

Definition grow_word (c : ascii) (l : list token) : list token :=
  match l with
  | Word w :: l' => Word (String c w) :: l'
  | _ => l
  end.

Definition grow_name (c : ascii) (l : list token) : list token :=
  match l with
  | Name x :: l' => Name (String c x) :: l'
  | _ => l
  end.

Definition grow_literal (c : ascii) (l : list token) : list token :=
  match l with
  | Literal x :: l' => Literal (String c x) :: l'
  | _ => l
  end.

Fixpoint scan (m : scan_mode) (s : string) : list token :=
  match s with
  | EmptyString =>
      match m with
      | InWord => [Word EmptyString]
      | _ => []
      end
  | String c r =>
      match m with
      | InName =>
          if Ascii.eqb c backtick then Name EmptyString :: scan Code r
          else grow_name c (scan InName r)
      | InLiteral =>
          if Ascii.eqb c quote_char then Literal EmptyString :: scan Code r
          else grow_literal c (scan InLiteral r)
      | InComment =>
          if Ascii.eqb c LF then scan Code r else scan InComment r
      | Code | InWord =>
          let code :=
            if word_char c then grow_word c (scan InWord r)
            else if Ascii.eqb c backtick then scan InName r
            else if Ascii.eqb c quote_char then scan InLiteral r
            else if prefix "--" s then scan InComment r
            else if Ascii.eqb c " " || Ascii.eqb c LF then scan Code r
            else Punct c :: scan Code r in
          match m with
          | InWord => if word_char c then code else Word EmptyString :: code
          | _ => code
          end
      end
  end.

(** The tokens of a statement. *)
Definition tokens (stmt : string) : list token := scan Code stmt.


(** How often the word [w] stands in the code, outside names, literals
    and comments. *)
Definition keyword_count (w : string) (toks : list token) : nat :=
  length (filter (fun t => match t with
                           | Word x => String.eqb x w
                           | _ => false
                           end) toks).

(** The back-quoted names, in order. *)
Definition names (toks : list token) : list string :=
  flat_map (fun t => match t with
                     | Name x => [x]
                     | _ => []
                     end) toks.

(** The bracketed lists of literals, in order; inside a bracket the head
    of the result is the list being read. *)
Fixpoint arrays (inside : bool) (toks : list token) : list (list string) :=
  match toks with
  | [] => []
  | Punct c :: r =>
      if Ascii.eqb c lbracket then arrays true r
      else if Ascii.eqb c rbracket then
             if inside then [] :: arrays false r else arrays false r
      else arrays inside r
  | Literal x :: r =>
      if inside then
        match arrays true r with
        | a :: l => (x :: a) :: l
        | [] => []
        end
      else arrays false r
  | _ :: r => arrays inside r
  end.

(** The tokens the contract's form of the statement consists of. *)
Definition more_tokens (cols : list string) : list token :=
  flat_map (fun col => [Punct ","; Literal col]) cols.

Definition array_tokens (cols : list string) : list token :=
  Punct lbracket ::
  match cols with
  | [] => []
  | col :: rest => Literal col :: more_tokens rest
  end ++ [Punct rbracket].

Definition statement_tokens (p d n t s : string) (ks : list string) : list token :=
  [Word "CALL"; Name (p ++ "." ++ d ++ "." ++ n); Punct "(";
   Literal t; Punct ","; Literal s; Punct ","] ++
  array_tokens ks ++
  [Punct ","; Word "NULL"; Punct ")"; Punct ";"].

(** ** The workflow block (lines 53-66 of the script)

    [DAG] and [BigQueryExecuteQueryOperator] are classes of the
    scheduling framework.  They are modelled as records of the keyword
    arguments the script passes, and the framework's ambient state as
    the stack of [with DAG(...)] blocks being executed together with the
    DAG objects the module has finished defining.  An operator
    constructed inside a [with] block is added to the innermost DAG. *)

Record BigQueryExecuteQueryOperator : Type := mkOperator {
  task_id : string;
  sql : string;
  use_legacy_sql : bool;
  location : string;
  gcp_conn_id : string
}.

Record DAG : Type := mkDAG {
  dag_id : string;
  start_date : nat * nat * nat * string;
  catchup : bool;
  schedule : option string;
  tags : list string;
  tasks : list BigQueryExecuteQueryOperator
}.

Record Airflow : Type := mkAirflow {
  dag_context : list DAG;
  module_dags : list DAG
}.

Definition empty_airflow : Airflow := mkAirflow [] [].

(** Module-level code as a state transformer over the framework. *)
Definition Load (A : Type) : Type := Airflow -> A * Airflow.

Definition ret {A : Type} (a : A) : Load A := fun w => (a, w).

Definition bind {A B : Type} (m : Load A) (k : A -> Load B) : Load B :=
  fun w => let (a, w') := m w in k a w'.

Notation "x <- m ;; k" := (bind m (fun x => k))
  (at level 61, m at next level, right associativity).
Notation "m ;;; k" := (bind m (fun _ => k))
  (at level 61, right associativity).

Definition add_task (op : BigQueryExecuteQueryOperator) (d : DAG) : DAG :=
  mkDAG (dag_id d) (start_date d) (catchup d) (schedule d) (tags d)
        (tasks d ++ [op]).

(** [with DAG(...) as dag:] on entry. *)
Definition dag_enter (d : DAG) : Load unit :=
  fun w => (tt, mkAirflow (d :: dag_context w) (module_dags w)).

(** [BigQueryExecuteQueryOperator(...)]. *)
Definition new_operator (tid stmt : string) (legacy : bool) (loc conn : string)
  : Load BigQueryExecuteQueryOperator :=
  fun w =>
    let op := mkOperator tid stmt legacy loc conn in
    match dag_context w with
    | d :: ctx => (op, mkAirflow (add_task op d :: ctx) (module_dags w))
    | [] => (op, w)
    end.

(** Leaving the [with] block: the DAG stays bound at module level. *)
Definition dag_exit : Load unit :=
  fun w =>
    match dag_context w with
    | d :: ctx => (tt, mkAirflow ctx (module_dags w ++ [d]))
    | [] => (tt, w)
    end.

(** Lines 24-40 seen from the framework: two assignments of strings. *)
Definition build_statement
    (project_id dataset procedure_name target_table source_table : string)
    (key_columns : list string) : Load string :=
  ret (sql_call_statement project_id dataset procedure_name
                          target_table source_table key_columns).

(** Lines 53-66, with the task identifier, the statement, the location
    and the connection as parameters. *)
Definition register_task (tid stmt loc conn : string)
  : Load BigQueryExecuteQueryOperator :=
  dag_enter (mkDAG "bq_call_generic_merge_sp" (2023, 10, 26, "UTC") false None
                   ["bigquery"; "stored-procedure"; "example"] []) ;;;
  op <- new_operator tid stmt false loc conn ;;
  dag_exit ;;;
  ret op.

(** The script, top to bottom. *)
Definition load_script : Load BigQueryExecuteQueryOperator :=
  stmt <- build_statement Script.GCP_PROJECT_ID Script.SP_DATASET Script.SP_NAME
                          Script.TARGET_TABLE Script.SOURCE_TABLE
                          Script.KEY_COLUMNS ;;
  register_task "call_usp_generic_merge" stmt Script.BQ_LOCATION Script.GCP_CONN_ID.

Definition call_bigquery_stored_procedure : BigQueryExecuteQueryOperator :=
  fst (load_script empty_airflow).

(** ** Texts the properties refer to *)

(** The statement of the documented end-to-end example, as the
    documentation prints it. *)
Definition documented_example : string :=
  "CALL `proj.ds.usp_generic_merge`(" ++ nl ++
  "    'proj.ds.target'," ++ nl ++
  "    'proj.ds.source'," ++ nl ++
  "    ['id']," ++ nl ++
  "    NULL" ++ nl ++
  ");".

(** The statement the script's template gives on the same inputs. *)
Definition scripted_example : string :=
  nl ++
  "CALL `proj.ds.usp_generic_merge`(" ++ nl ++
  "    'proj.ds.target',          -- target_table_name STRING" ++ nl ++
  "    'proj.ds.source',          -- source_table_name STRING" ++ nl ++
  "    ['id'],   -- key_columns ARRAY<STRING>" ++ nl ++
  "    NULL                       -- options JSON (using NULL here)" ++ nl ++
  "    -- Or use an empty JSON object: PARSE_JSON('{}')" ++ nl ++
  ");" ++ nl.

(** The fixed text that closes every statement. *)
Definition statement_tail : string :=
  "    NULL                       -- options JSON (using NULL here)" ++ nl ++
  "    -- Or use an empty JSON object: PARSE_JSON('{}')" ++ nl ++
  ");" ++ nl.

(** The elements of the array literal after the first one, each with
    the separator in front of it. *)
Definition more_elements (cols : list string) : string :=
  fold_right (fun col acc => ", '" ++ col ++ "'" ++ acc) "" cols.

(** The sum of an observation over the key columns. *)
Definition total (f : string -> nat) (cols : list string) : nat :=
  list_sum (map f cols).

(** ** Further readings of the script

    Lines 19-20 derive the two table names from the project and the
    dataset; here as functions of both. *)

Module Tables.

Definition TARGET_TABLE (GCP_PROJECT_ID SP_DATASET : string) : string :=
  GCP_PROJECT_ID ++ "." ++ SP_DATASET ++ ".target_customers".

Definition SOURCE_TABLE (GCP_PROJECT_ID SP_DATASET : string) : string :=
  GCP_PROJECT_ID ++ "." ++ SP_DATASET ++ ".staging_customers".

End Tables.

(** The statement as the script configures it: tables derived from the
    project and the dataset of the procedure. *)
Definition configured_statement
    (GCP_PROJECT_ID SP_DATASET SP_NAME : string) (KEY_COLUMNS : list string) : string :=
  sql_call_statement GCP_PROJECT_ID SP_DATASET SP_NAME
    (Tables.TARGET_TABLE GCP_PROJECT_ID SP_DATASET)
    (Tables.SOURCE_TABLE GCP_PROJECT_ID SP_DATASET) KEY_COLUMNS.


Definition bracket_free (s : string) : Prop := count_char rbracket s = 0.

Definition dot_free (s : string) : Prop := count_char "."%char s = 0.

(** The project, dataset and procedure of a statement: the back-quoted
    name cut at its first two dots. *)
Definition procedure_of (stmt : string) : option (string * string * string) :=
  match between backtick backtick stmt with
  | Some name =>
      match until "."%char name with
      | Some (project, rest) =>
          match until "."%char rest with
          | Some (dataset, procedure) => Some (project, dataset, procedure)
          | None => None
          end
      | None => None
      end
  | None => None
  end.

(** * Properties *)

(** ** Strings *)

Lemma append_assoc (a b c : string) : (a ++ b) ++ c = a ++ b ++ c.
Proof. induction a as [|x a IH]; simpl; [reflexivity | now rewrite IH]. Qed.

Lemma append_nil_r (a : string) : a ++ "" = a.
Proof. induction a as [|x a IH]; simpl; [reflexivity | now rewrite IH]. Qed.

Lemma prefix_cons (a b : ascii) (p s : string) :
  prefix (String a p) (String b s) = Ascii.eqb a b && prefix p s.
Proof.
  simpl. destruct (ascii_dec a b) as [->|Hab].
  - now rewrite Ascii.eqb_refl.
  - apply Ascii.eqb_neq in Hab. now rewrite Hab.
Qed.

Lemma prefix_app (p s : string) : prefix p (p ++ s) = true.
Proof.
  induction p as [|a p IH]; [now destruct s|].
  cbn [append]. now rewrite prefix_cons, Ascii.eqb_refl, IH.
Qed.

Lemma prefix_app_cancel (a p s : string) : prefix (a ++ p) (a ++ s) = prefix p s.
Proof.
  induction a as [|x a IH]; [reflexivity|].
  cbn [append]. now rewrite prefix_cons, Ascii.eqb_refl, IH.
Qed.

Lemma contains_here (pat s : string) : prefix pat s = true -> contains pat s = true.
Proof. intros H. destruct s; simpl in *; now rewrite H. Qed.

Lemma contains_cons (pat : string) (a : ascii) (s : string) :
  contains pat s = true -> contains pat (String a s) = true.
Proof. intros H. cbn [contains]. rewrite H. apply orb_true_r. Qed.

Lemma contains_skip (pat a s : string) :
  contains pat s = true -> contains pat (a ++ s) = true.
Proof.
  intros H. induction a as [|x a IH]; [exact H|].
  cbn [append]. now apply contains_cons.
Qed.

Lemma ends_with_refl (s : string) : ends_with s s = true.
Proof. destruct s; simpl; now rewrite ?String.eqb_refl, ?Ascii.eqb_refl. Qed.

Lemma ends_with_cons (pat : string) (a : ascii) (s : string) :
  ends_with pat s = true -> ends_with pat (String a s) = true.
Proof. intros H. cbn [ends_with]. rewrite H. apply orb_true_r. Qed.

Lemma ends_with_skip (pat a s : string) :
  ends_with pat s = true -> ends_with pat (a ++ s) = true.
Proof.
  intros H. induction a as [|x a IH]; [exact H|].
  cbn [append]. now apply ends_with_cons.
Qed.

Lemma count_char_app (c : ascii) (a b : string) :
  count_char c (a ++ b) = count_char c a + count_char c b.
Proof. induction a as [|x a IH]; simpl; [reflexivity | rewrite IH; lia]. Qed.

Lemma prefix_nil (s : string) : prefix "" s = true.
Proof. now destruct s. Qed.

(** A character foreign to the pattern stops every match that has not
    been completed before it. *)
Lemma prefix_sep (c : ascii) (pat x b : string) :
  count_char c pat = 0 -> prefix pat (x ++ String c b) = prefix pat x.
Proof.
  revert x. induction pat as [|a p IH]; intros x Hc.
  - now rewrite !prefix_nil.
  - cbn [count_char] in Hc.
    destruct (Ascii.eqb a c) eqn:Hac; [discriminate|].
    destruct x as [|y x]; cbn [append].
    + rewrite prefix_cons, Hac. reflexivity.
    + rewrite !prefix_cons, IH by exact Hc. reflexivity.
Qed.

Lemma count_sub_sep (c a0 : ascii) (p a b : string) :
  count_char c (String a0 p) = 0 ->
  count_sub (String a0 p) (a ++ String c b) =
  count_sub (String a0 p) a + count_sub (String a0 p) (String c b).
Proof.
  intros Hc. remember (count_sub (String a0 p) (String c b)) as k eqn:Hk.
  induction a as [|y a IH].
  - now subst k.
  - change (String y a ++ String c b) with (String y (a ++ String c b)).
    cbn [count_sub]. rewrite IH.
    change (String y (a ++ String c b)) with (String y a ++ String c b).
    rewrite (prefix_sep c (String a0 p) (String y a) b Hc). lia.
Qed.

Lemma until_skip (c : ascii) (a s : string) :
  count_char c a = 0 ->
  until c (a ++ s) =
  match until c s with
  | Some (u, r) => Some (a ++ u, r)
  | None => None
  end.
Proof.
  induction a as [|x a IH]; intros Hc.
  - cbn [append]. now destruct (until c s) as [[u r]|].
  - cbn [count_char] in Hc. cbn [append until].
    destruct (Ascii.eqb x c); [discriminate|].
    rewrite IH by exact Hc. now destruct (until c s) as [[u r]|].
Qed.

(** ** The array literal *)

Lemma join_cons (col : string) (cols : list string) :
  String.concat ", " (map (fun c => "'" ++ c ++ "'") (col :: cols)) =
  "'" ++ col ++ "'" ++ more_elements cols.
Proof.
  revert col. induction cols as [|c cols IH]; intros col.
  - reflexivity.
  - change (String.concat ", " (map (fun c => "'" ++ c ++ "'") (col :: c :: cols)))
      with (("'" ++ col ++ "'") ++ ", " ++
            String.concat ", " (map (fun c => "'" ++ c ++ "'") (c :: cols))).
    rewrite IH, !append_assoc. reflexivity.
Qed.

Lemma key_columns_sql_array_nil : key_columns_sql_array [] = "[]".
Proof. reflexivity. Qed.

Lemma key_columns_sql_array_cons (col : string) (cols : list string) :
  key_columns_sql_array (col :: cols) =
  "['" ++ col ++ "'" ++ more_elements cols ++ "]".
Proof.
  unfold key_columns_sql_array. rewrite join_cons, !append_assoc. reflexivity.
Qed.

Lemma total_cons (f : string -> nat) (c : string) (cols : list string) :
  total f (c :: cols) = f c + total f cols.
Proof. reflexivity. Qed.

(** *** Counting markers *)

Lemma count_sub_CALL_more_elements (cols : list string) (rest : string) :
  count_sub "CALL" (more_elements cols ++ String rbracket rest) =
  total (count_sub "CALL") cols + count_sub "CALL" rest.
Proof.
  induction cols as [|c cols IH].
  - reflexivity.
  - cbn [more_elements fold_right]. fold (more_elements cols).
    rewrite !append_assoc, total_cons. simpl.
    rewrite count_sub_sep by reflexivity. simpl. rewrite IH. lia.
Qed.

Lemma count_sub_CALL_array (cols : list string) (rest : string) :
  count_sub "CALL" (key_columns_sql_array cols ++ rest) =
  total (count_sub "CALL") cols + count_sub "CALL" rest.
Proof.
  destruct cols as [|c cols].
  - reflexivity.
  - rewrite key_columns_sql_array_cons, !append_assoc, total_cons. simpl.
    rewrite count_sub_sep by reflexivity. simpl.
    rewrite count_sub_CALL_more_elements. lia.
Qed.

Lemma count_sub_CALL_statement (p d n t s : string) (ks : list string) :
  count_sub "CALL" (sql_call_statement p d n t s ks) =
  1 + count_sub "CALL" p + count_sub "CALL" d + count_sub "CALL" n +
  count_sub "CALL" t + count_sub "CALL" s + total (count_sub "CALL") ks.
Proof.
  unfold sql_call_statement.
  match goal with
  | |- context [key_columns_sql_array ks ++ ?r] =>
      remember (key_columns_sql_array ks ++ r) as arr eqn:Harr
  end.
  simpl.
  rewrite (count_sub_sep "."%char) by reflexivity. simpl.
  rewrite (count_sub_sep "."%char) by reflexivity. simpl.
  rewrite (count_sub_sep "`"%char) by reflexivity. simpl.
  rewrite (count_sub_sep "'"%char) by reflexivity. simpl.
  rewrite (count_sub_sep "'"%char) by reflexivity. simpl.
  subst arr. rewrite count_sub_CALL_array. simpl. lia.
Qed.

Lemma separator_foreign (c : ascii) :
  count_char c ", '" = 0 ->
  Ascii.eqb "," c = false /\ Ascii.eqb " " c = false /\ Ascii.eqb "'" c = false.
Proof.
  cbn [count_char].
  destruct (Ascii.eqb "," c), (Ascii.eqb " " c), (Ascii.eqb "'" c);
    intros H; try discriminate H; auto.
Qed.

Lemma count_char_more_elements (c : ascii) (cols : list string) :
  count_char c ", '" = 0 ->
  count_char c (more_elements cols) = total (count_char c) cols.
Proof.
  intros Hc. induction cols as [|x cols IH].
  - reflexivity.
  - cbn [more_elements fold_right]. fold (more_elements cols).
    rewrite total_cons, !count_char_app, IH, Hc.
    destruct (separator_foreign c Hc) as (_ & _ & Hq).
    cbn [count_char]. rewrite Hq. lia.
Qed.

Lemma count_char_array (c : ascii) (cols : list string) :
  count_char c ", '" = 0 ->
  count_char c (key_columns_sql_array cols) =
  count_char c "[]" + total (count_char c) cols.
Proof.
  intros Hc. destruct cols as [|x cols].
  - cbn. lia.
  - rewrite key_columns_sql_array_cons, total_cons, !count_char_app.
    rewrite (count_char_more_elements c cols Hc).
    destruct (separator_foreign c Hc) as (_ & _ & Hq).
    cbn [count_char]. rewrite Hq. lia.
Qed.


Ltac count_char_statement :=
  intros; unfold sql_call_statement;
  rewrite !count_char_app, !count_char_array by reflexivity;
  simpl; lia.

Lemma count_backtick_statement (p d n t s : string) (ks : list string) :
  count_char backtick (sql_call_statement p d n t s ks) =
  2 + count_char backtick p + count_char backtick d + count_char backtick n +
  count_char backtick t + count_char backtick s + total (count_char backtick) ks.
Proof. count_char_statement. Qed.

Lemma count_lbracket_statement (p d n t s : string) (ks : list string) :
  count_char lbracket (sql_call_statement p d n t s ks) =
  1 + count_char lbracket p + count_char lbracket d + count_char lbracket n +
  count_char lbracket t + count_char lbracket s + total (count_char lbracket) ks.
Proof. count_char_statement. Qed.

Lemma count_rbracket_statement (p d n t s : string) (ks : list string) :
  count_char rbracket (sql_call_statement p d n t s ks) =
  1 + count_char rbracket p + count_char rbracket d + count_char rbracket n +
  count_char rbracket t + count_char rbracket s + total (count_char rbracket) ks.
Proof. count_char_statement. Qed.

(** *** Reading the array literal back *)

Lemma elements_in (c rest : string) :
  quote_free c ->
  elements InElement (c ++ String quote_char rest) =
  match elements AfterElement rest with
  | Some l => Some (c :: l)
  | None => None
  end.
Proof.
  unfold quote_free. induction c as [|a c IH]; intros Hq.
  - cbn. now destruct (elements AfterElement rest).
  - cbn [count_char] in Hq. cbn [append elements].
    destruct (Ascii.eqb a quote_char); [discriminate|].
    rewrite IH by exact Hq. now destruct (elements AfterElement rest).
Qed.

Lemma elements_more (cols : list string) :
  Forall quote_free cols ->
  elements AfterElement (more_elements cols) = Some cols.
Proof.
  induction 1 as [|c cols Hc _ IH].
  - reflexivity.
  - cbn [more_elements fold_right]. fold (more_elements cols).
    change (", '" ++ c ++ "'" ++ more_elements cols)
      with (String "," (String " " (String quote_char
              (c ++ String quote_char (more_elements cols))))).
    cbn [elements]. cbn. rewrite elements_in by exact Hc. now rewrite IH.
Qed.

Lemma elements_join (cols : list string) :
  Forall quote_free cols ->
  elements AtStart (String.concat ", " (map (fun c => "'" ++ c ++ "'") cols)) =
  Some cols.
Proof.
  intros H. destruct H as [|c cols Hc Hcols].
  - reflexivity.
  - rewrite join_cons.
    change ("'" ++ c ++ "'" ++ more_elements cols)
      with (String quote_char (c ++ String quote_char (more_elements cols))).
    cbn [elements]. cbn. rewrite elements_in by exact Hc.
    now rewrite elements_more.
Qed.

(** *** Delimited text *)

Lemma until_found (c : ascii) (a r : string) :
  count_char c a = 0 -> until c (a ++ String c r) = Some (a, r).
Proof.
  intros Hc. rewrite until_skip by exact Hc.
  cbn [until]. now rewrite Ascii.eqb_refl, append_nil_r.
Qed.

Lemma between_found (o c : ascii) (a u r : string) :
  count_char o a = 0 -> count_char c u = 0 ->
  between o c (a ++ String o (u ++ String c r)) = Some u.
Proof.
  intros Ha Hu. unfold between.
  now rewrite (until_found o a _ Ha), (until_found c u r Hu).
Qed.

Lemma total_zero (f : string -> nat) (cols : list string) :
  total f cols = 0 <-> Forall (fun c => f c = 0) cols.
Proof.
  induction cols as [|c cols IH].
  - split; [constructor | reflexivity].
  - rewrite total_cons. split.
    + intros H. constructor; [lia | apply IH; lia].
    + intros H. inversion H as [|? ? Hc Hcols]; subst.
      apply IH in Hcols. lia.
Qed.

Lemma between_backticks (p d n t s : string) (ks : list string) :
  count_char backtick p = 0 -> count_char backtick d = 0 ->
  count_char backtick n = 0 ->
  between backtick backtick (sql_call_statement p d n t s ks) =
  Some (p ++ "." ++ d ++ "." ++ n).
Proof.
  intros Hp Hd Hn. unfold sql_call_statement.
  match goal with
  | |- context [n ++ "`(" ++ ?r] =>
      replace (nl ++ "CALL `" ++ p ++ "." ++ d ++ "." ++ n ++ "`(" ++ r)
        with ((nl ++ "CALL ") ++
              String backtick ((p ++ "." ++ d ++ "." ++ n) ++
                               String backtick ("(" ++ r)))
        by (rewrite !append_assoc; reflexivity)
  end.
  apply between_found; [reflexivity|].
  rewrite !count_char_app, Hp, Hd, Hn. reflexivity.
Qed.

Lemma between_brackets (p d n t s : string) (ks : list string) :
  count_char lbracket p = 0 -> count_char lbracket d = 0 ->
  count_char lbracket n = 0 -> count_char lbracket t = 0 ->
  count_char lbracket s = 0 -> total (count_char rbracket) ks = 0 ->
  between lbracket rbracket (sql_call_statement p d n t s ks) =
  Some (String.concat ", " (map (fun c => "'" ++ c ++ "'") ks)).
Proof.
  intros Hp Hd Hn Ht Hs Hks. unfold sql_call_statement, key_columns_sql_array.
  set (body := String.concat ", " (map (fun c => "'" ++ c ++ "'") ks)).
  match goal with
  | |- context [("[" ++ body ++ "]") ++ ?r] =>
      replace (nl ++ "CALL `" ++ p ++ "." ++ d ++ "." ++ n ++ "`(" ++ nl ++
               "    '" ++ t ++ "',          -- target_table_name STRING" ++ nl ++
               "    '" ++ s ++ "',          -- source_table_name STRING" ++ nl ++
               "    " ++ ("[" ++ body ++ "]") ++ r)
        with ((nl ++ "CALL `" ++ p ++ "." ++ d ++ "." ++ n ++ "`(" ++ nl ++
               "    '" ++ t ++ "',          -- target_table_name STRING" ++ nl ++
               "    '" ++ s ++ "',          -- source_table_name STRING" ++ nl ++
               "    ") ++ String lbracket (body ++ String rbracket r))
        by (rewrite !append_assoc; reflexivity)
  end.
  apply between_found.
  - rewrite !count_char_app, Hp, Hd, Hn, Ht, Hs. reflexivity.
  - subst body. destruct ks as [|c cols]; [reflexivity|].
    rewrite join_cons, !count_char_app, count_char_more_elements by reflexivity.
    rewrite total_cons in Hks.
    replace (count_char rbracket c) with 0 by lia.
    replace (total (count_char rbracket) cols) with 0 by lia.
    reflexivity.
Qed.

(** ** Tactics for substrings *)

Lemma Returned_neq (a b : string) :
  String.eqb a b = false -> Returned a <> Returned b.
Proof. intros H E. injection E as E. apply String.eqb_neq in H. contradiction. Qed.

Ltac prefix_here :=
  cbn [append];
  repeat first
    [ apply prefix_nil
    | rewrite prefix_app_cancel
    | rewrite prefix_cons, Ascii.eqb_refl; cbn [andb] ];
  solve [ reflexivity | apply prefix_app ].

Ltac find_sub :=
  cbn [append];
  repeat first
    [ apply contains_here; prefix_here
    | apply contains_cons
    | apply contains_skip ].

Ltac find_end :=
  first [ apply ends_with_refl | apply ends_with_skip; find_end ].

Ltac norm_app := repeat (progress (rewrite ?append_assoc; cbn [append])).

(** ** The end-to-end example *)

(** C1, as documented, fails: on the example's inputs the builder does
    not return the documented text. *)
Lemma example_output_differs :
  build_call_statement "proj" "ds" "usp_generic_merge" "proj.ds.target"
                       "proj.ds.source" ["id"] None
  <> Returned documented_example.
Proof.
  unfold build_call_statement. apply Returned_neq. vm_compute. reflexivity.
Qed.

(** C1 (amended): on the example's inputs the builder returns the
    documented statement with a line break in front, a line comment
    after each argument, one further comment line before the closing
    parenthesis and a line break at the end; once line comments and
    blank lines are dropped the two texts have the same lines. *)
Theorem example_output :
  build_call_statement "proj" "ds" "usp_generic_merge" "proj.ds.target"
                       "proj.ds.source" ["id"] None
  = Returned scripted_example /\
  sql_code_lines scripted_example = sql_code_lines documented_example /\
  sql_code_lines scripted_example =
    ["CALL `proj.ds.usp_generic_merge`("; "'proj.ds.target',";
     "'proj.ds.source',"; "['id'],"; "NULL"; ");"].
Proof. split; [|split]; vm_compute; reflexivity. Qed.

(** ** Validation *)

(** C2, as documented, fails: with an empty key-column list the
    builder returns a statement instead of raising. *)
Lemma empty_key_columns_accepted :
  build_call_statement "proj" "ds" "usp_generic_merge" "proj.ds.target"
                       "proj.ds.source" [] None
  <> Raised InvalidArgument.
Proof. unfold build_call_statement. discriminate. Qed.

(** C2 (amended): the builder validates nothing and never fails.  Every
    input, empty strings and an empty key-column list included, yields
    a statement; with no key column the array argument is [[]]. *)
Theorem builder_never_fails :
  (forall p d n t s ks o e,
      build_call_statement p d n t s ks o <> Raised e) /\
  (forall p d n t s ks o, exists stmt,
      build_call_statement p d n t s ks o = Returned stmt /\
      prefix (nl ++ "CALL `" ++ p ++ "." ++ d ++ "." ++ n ++ "`(") stmt = true) /\
  (forall p d n t s o, exists stmt,
      build_call_statement p d n t s [] o = Returned stmt /\
      contains ("    []," ++ "   -- key_columns ARRAY<STRING>") stmt = true) /\
  (forall o, exists stmt,
      build_call_statement "" "" "" "" "" [] o = Returned stmt /\
      sql_code_lines stmt = ["CALL `..`("; "'',"; "'',"; "[],"; "NULL"; ");"]).
Proof.
  split; [|split; [|split]].
  - intros. unfold build_call_statement. discriminate.
  - intros. eexists. split; [reflexivity|].
    unfold sql_call_statement. prefix_here.
  - intros. eexists. split; [reflexivity|].
    unfold sql_call_statement. rewrite key_columns_sql_array_nil. find_sub.
  - intros. eexists. split; [reflexivity|]. vm_compute. reflexivity.
Qed.

(** ** The key-column array *)

(** C4: the array literal is an opening bracket, the first column in
    single quotes, every further column in single quotes behind a comma
    and one space, and a closing bracket; one column gives [['col']],
    the columns id and region give [['id', 'region']] in that order. *)
Theorem key_columns_rendering :
  (forall cols,
      key_columns_sql_array cols =
      "[" ++ String.concat ", " (map (fun col => "'" ++ col ++ "'") cols) ++ "]") /\
  key_columns_sql_array [] = "[]" /\
  (forall col cols,
      key_columns_sql_array (col :: cols) =
      "['" ++ col ++ "'" ++ more_elements cols ++ "]") /\
  (forall col cols,
      more_elements (col :: cols) = ", '" ++ col ++ "'" ++ more_elements cols) /\
  key_columns_sql_array ["col"] = "['col']" /\
  key_columns_sql_array ["id"; "region"] = "['id', 'region']" /\
  array_literal_elements (key_columns_sql_array ["id"; "region"]) =
    Some ["id"; "region"].
Proof.
  split; [reflexivity|].
  split; [reflexivity|].
  split; [exact key_columns_sql_array_cons|].
  split; [reflexivity|].
  split; [|split]; vm_compute; reflexivity.
Qed.

(** ** The options argument *)

(** C5, as documented, fails: asked for an empty options object, the
    builder does not render the JSON-parsing call as fourth argument. *)
Lemma no_json_options_mode :
  ~ (exists stmt,
        build_call_statement "proj" "ds" "usp_generic_merge" "proj.ds.target"
                             "proj.ds.source" ["id"] (Some []) = Returned stmt /\
        options_argument stmt = Some (documented_options_rendering (Some []))).
Proof.
  intros (stmt & Hb & Ho). unfold build_call_statement in Hb.
  injection Hb as <-. vm_compute in Ho. discriminate Ho.
Qed.

(** C5 (amended): the options value is never read.  Whatever it is, the
    statement is the one built without options, it closes with the
    [NULL] argument line, the comment line naming [PARSE_JSON('{}')]
    and the closing parenthesis, and on the example's inputs its fourth
    argument is [NULL] while the JSON-parsing call is absent from the
    SQL outside comments. *)
Theorem options_always_null :
  (forall p d n t s ks o,
      build_call_statement p d n t s ks o =
      build_call_statement p d n t s ks None) /\
  (forall p d n t s ks o, exists stmt,
      build_call_statement p d n t s ks o = Returned stmt /\
      ends_with statement_tail stmt = true) /\
  sql_code_lines statement_tail = ["NULL"; ");"] /\
  (forall o, exists stmt,
      build_call_statement "proj" "ds" "usp_generic_merge" "proj.ds.target"
                           "proj.ds.source" ["id"] o = Returned stmt /\
      options_argument stmt = Some "NULL" /\
      existsb (contains "PARSE_JSON") (sql_code_lines stmt) = false /\
      contains "-- Or use an empty JSON object: PARSE_JSON('{}')" stmt = true).
Proof.
  split; [reflexivity|]. split; [|split].
  - intros. eexists. split; [reflexivity|].
    unfold sql_call_statement.
    find_end.
  - vm_compute. reflexivity.
  - intros. eexists. split; [reflexivity|].
    split; [|split]; vm_compute; reflexivity.
Qed.

(** ** Purity *)

(** C6: the statement is a function of the inputs alone.  Run in any
    two states of the framework the builder returns the same text, it
    leaves the state as it found it, building twice in a row gives the
    same text twice, and the text is the one the contract-level builder
    returns whatever the state. *)
Theorem builder_pure :
  forall p d n t s ks (w w' : Airflow),
    fst (build_statement p d n t s ks w) = fst (build_statement p d n t s ks w') /\
    snd (build_statement p d n t s ks w) = w /\
    (a <- build_statement p d n t s ks ;;
     b <- build_statement p d n t s ks ;;
     ret (a, b)) w
    = ((sql_call_statement p d n t s ks, sql_call_statement p d n t s ks), w) /\
    (forall o : option Options,
        build_call_statement p d n t s ks o =
        Returned (fst (build_statement p d n t s ks w))).
Proof. intros. split; [|split; [|split]]; reflexivity. Qed.

(** ** Registration *)

Lemma register_task_run (tid stmt loc conn : string) (w : Airflow) :
  register_task tid stmt loc conn w =
  (mkOperator tid stmt false loc conn,
   mkAirflow (dag_context w)
             (module_dags w ++
              [mkDAG "bq_call_generic_merge_sp" (2023, 10, 26, "UTC") false None
                     ["bigquery"; "stored-procedure"; "example"]
                     [mkOperator tid stmt false loc conn]])%list).
Proof. reflexivity. Qed.

(** C7: the task object that registration returns, and the one placed
    in the workflow, store the statement they were given unchanged; for
    a statement coming from the builder that is the builder's text. *)
Theorem registered_sql_is_built_statement :
  (forall tid stmt loc conn w,
      sql (fst (register_task tid stmt loc conn w)) = stmt /\
      exists dag,
        module_dags (snd (register_task tid stmt loc conn w)) =
          (module_dags w ++ [dag])%list /\
        map sql (tasks dag) = [stmt]) /\
  (forall p d n t s ks tid loc conn w,
      sql (fst ((stmt <- build_statement p d n t s ks ;;
                 register_task tid stmt loc conn) w))
      = sql_call_statement p d n t s ks) /\
  sql call_bigquery_stored_procedure = Script.sql_call_statement.
Proof.
  split; [|split].
  - intros. rewrite register_task_run. split; [reflexivity|].
    eexists. split; reflexivity.
  - intros. reflexivity.
  - reflexivity.
Qed.

(** C8: loading the script hands the scheduler one task object with its
    five values -- identifier, statement, dialect flag, location and
    connection -- none of the strings empty and the legacy dialect
    switched off, and leaves exactly one workflow holding exactly that
    one task. *)
Theorem script_registers_one_task :
  call_bigquery_stored_procedure =
    mkOperator "call_usp_generic_merge" Script.sql_call_statement false
               "US" "google_cloud_default" /\
  task_id call_bigquery_stored_procedure <> "" /\
  sql call_bigquery_stored_procedure <> "" /\
  use_legacy_sql call_bigquery_stored_procedure = false /\
  location call_bigquery_stored_procedure <> "" /\
  gcp_conn_id call_bigquery_stored_procedure <> "" /\
  (exists dag,
      snd (load_script empty_airflow) = mkAirflow [] [dag] /\
      dag_id dag = "bq_call_generic_merge_sp" /\
      tasks dag = [call_bigquery_stored_procedure]) /\
  (forall tid stmt loc conn w,
      use_legacy_sql (fst (register_task tid stmt loc conn w)) = false /\
      dag_context (snd (register_task tid stmt loc conn w)) = dag_context w /\
      exists dag,
        module_dags (snd (register_task tid stmt loc conn w)) =
          (module_dags w ++ [dag])%list /\
        tasks dag = [fst (register_task tid stmt loc conn w)]).
Proof.
  assert (Hop : call_bigquery_stored_procedure =
                mkOperator "call_usp_generic_merge" Script.sql_call_statement false
                           "US" "google_cloud_default") by reflexivity.
  split; [exact Hop|]. rewrite Hop. cbn [task_id sql use_legacy_sql location gcp_conn_id].
  split; [discriminate|].
  split; [unfold Script.sql_call_statement, sql_call_statement; discriminate|].
  split; [reflexivity|].
  split; [discriminate|].
  split; [discriminate|].
  split.
  - eexists. split; [reflexivity|]. split; reflexivity.
  - intros. rewrite register_task_run. cbn [fst snd use_legacy_sql dag_context module_dags].
    split; [reflexivity|]. split; [reflexivity|].
    eexists. split; reflexivity.
Qed.

(** ** Layout of the statement *)

(** C9: every statement starts with a line break, so [CALL] is not its
    first text, and ends with one; each of the four argument lines
    carries a line comment, and an extra comment line naming
    [PARSE_JSON('{}')] stands between the [NULL] argument and the
    closing parenthesis. *)
Theorem statement_layout :
  forall p d n t s ks,
    let stmt := sql_call_statement p d n t s ks in
    String.get 0 stmt = Some LF /\
    prefix "CALL" stmt = false /\
    prefix (nl ++ "CALL `") stmt = true /\
    ends_with nl stmt = true /\
    contains ("'" ++ t ++ "',          -- target_table_name STRING" ++ nl) stmt = true /\
    contains ("'" ++ s ++ "',          -- source_table_name STRING" ++ nl) stmt = true /\
    contains (key_columns_sql_array ks ++ ",   -- key_columns ARRAY<STRING>" ++ nl) stmt = true /\
    contains ("NULL                       -- options JSON (using NULL here)" ++ nl ++
              "    -- Or use an empty JSON object: PARSE_JSON('{}')" ++ nl ++
              ");" ++ nl) stmt = true /\
    ends_with statement_tail stmt = true.
Proof.
  intros. subst stmt. unfold sql_call_statement.
  split; [reflexivity|]. split; [reflexivity|]. split; [prefix_here|].
  split; [find_end|].
  split; [find_sub|]. split; [find_sub|]. split; [find_sub|].
  split; [find_sub|].
  find_end.
Qed.

(** ** Interpolation *)

Lemma contains_quoted_more (col : string) (cols : list string) (rest : string) :
  In col cols ->
  contains ("'" ++ col ++ "'") (more_elements cols ++ rest) = true.
Proof.
  induction cols as [|x cols IH]; intros Hin; [contradiction|].
  cbn [more_elements fold_right]. fold (more_elements cols).
  rewrite !append_assoc.
  destruct Hin as [->|Hin].
  - find_sub.
  - do 3 apply contains_skip. now apply IH.
Qed.

Lemma contains_quoted_array (col : string) (cols : list string) (rest : string) :
  In col cols ->
  contains ("'" ++ col ++ "'") (key_columns_sql_array cols ++ rest) = true.
Proof.
  destruct cols as [|x cols]; intros Hin; [contradiction|].
  rewrite key_columns_sql_array_cons, !append_assoc.
  destruct Hin as [->|Hin].
  - find_sub.
  - do 3 apply contains_skip. now apply contains_quoted_more.
Qed.

(** C10: nothing is escaped.  Each key column appears in the statement
    between single quotes exactly as given, and so do the two table
    names; a column holding a single quote therefore reaches the
    statement with that quote bare inside the quoted literal, which
    then no longer reads back as one element. *)
Theorem values_interpolated_verbatim :
  (forall p d n t s ks,
      let stmt := sql_call_statement p d n t s ks in
      Forall (fun col => contains ("'" ++ col ++ "'") stmt = true) ks /\
      contains ("'" ++ t ++ "'") stmt = true /\
      contains ("'" ++ s ++ "'") stmt = true) /\
  (let stmt := sql_call_statement "proj" "ds" "usp_generic_merge"
                                  "proj.ds.it's" "proj.ds.source" ["o'k"] in
   count_char quote_char "o'k" = 1 /\
   contains "['o'k']" stmt = true /\
   contains "'proj.ds.it's'," stmt = true /\
   contains "o''k" stmt = false /\ contains "o\'k" stmt = false /\
   array_literal_elements stmt = None).
Proof.
  split.
  - intros. subst stmt. split; [|split].
    + apply Forall_forall. intros col Hin. unfold sql_call_statement.
      do 18 apply contains_skip. now apply contains_quoted_array.
    + unfold sql_call_statement. find_sub.
    + unfold sql_call_statement. find_sub.
  - cbv zeta. repeat (split; [vm_compute; reflexivity|]). vm_compute. reflexivity.
Qed.

(** ** One call, one procedure name, one array *)

Lemma scan_name (x r : string) :
  count_char backtick x = 0 ->
  scan InName (x ++ String backtick r) = Name x :: scan Code r.
Proof.
  induction x as [|a x IH]; intros Hx.
  - reflexivity.
  - cbn [count_char] in Hx. cbn [append scan].
    destruct (Ascii.eqb a backtick); [discriminate|].
    now rewrite IH by exact Hx.
Qed.

Lemma scan_literal (x r : string) :
  count_char quote_char x = 0 ->
  scan InLiteral (x ++ String quote_char r) = Literal x :: scan Code r.
Proof.
  induction x as [|a x IH]; intros Hx.
  - reflexivity.
  - cbn [count_char] in Hx. cbn [append scan].
    destruct (Ascii.eqb a quote_char); [discriminate|].
    now rewrite IH by exact Hx.
Qed.

Lemma scan_more_elements (cols : list string) (rest : string) :
  Forall quote_free cols ->
  scan Code (more_elements cols ++ String rbracket rest) =
  (more_tokens cols ++ Punct rbracket :: scan Code rest)%list.
Proof.
  induction 1 as [|c cols Hc _ IH].
  - reflexivity.
  - cbn [more_elements fold_right]. fold (more_elements cols).
    norm_app.
    simpl.
    rewrite scan_literal by exact Hc. rewrite IH. reflexivity.
Qed.

Lemma scan_array (cols : list string) (rest : string) :
  Forall quote_free cols ->
  scan Code (key_columns_sql_array cols ++ rest) =
  (array_tokens cols ++ scan Code rest)%list.
Proof.
  intros H. destruct H as [|c cols Hc Hcols].
  - reflexivity.
  - rewrite key_columns_sql_array_cons. norm_app.
    simpl.
    rewrite scan_literal by exact Hc.
    rewrite scan_more_elements by exact Hcols.
    unfold array_tokens. cbn [app]. rewrite <- app_assoc. reflexivity.
Qed.

Lemma tokens_of_statement (p d n t s : string) (ks : list string) :
  count_char backtick p = 0 -> count_char backtick d = 0 ->
  count_char backtick n = 0 ->
  quote_free t -> quote_free s -> Forall quote_free ks ->
  tokens (sql_call_statement p d n t s ks) = statement_tokens p d n t s ks.
Proof.
  intros Bp Bd Bn Qt Qs Qk. unfold tokens.
  assert (E : sql_call_statement p d n t s ks =
    nl ++ "CALL " ++ String backtick
      ((p ++ "." ++ d ++ "." ++ n) ++ String backtick
         ("(" ++ nl ++ "    " ++ String quote_char
            (t ++ String quote_char
               (",          -- target_table_name STRING" ++ nl ++ "    " ++
                String quote_char
                  (s ++ String quote_char
                     (",          -- source_table_name STRING" ++ nl ++ "    " ++
                      key_columns_sql_array ks ++
                      ",   -- key_columns ARRAY<STRING>" ++ nl ++ statement_tail))))))).
  { unfold sql_call_statement, statement_tail. norm_app. reflexivity. }
  rewrite E. clear E.
  remember (key_columns_sql_array ks ++ ",   -- key_columns ARRAY<STRING>" ++ nl ++ statement_tail) as arr eqn:Harr.
  simpl.
  rewrite scan_name
    by (rewrite count_char_app, Bp; simpl; rewrite count_char_app, Bd; simpl; exact Bn).
  simpl. rewrite scan_literal by exact Qt.
  simpl. rewrite scan_literal by exact Qs.
  simpl. subst arr. rewrite scan_array by exact Qk.
  replace (scan Code (",   -- key_columns ARRAY<STRING>" ++ nl ++ statement_tail))
    with [Punct ","; Word "NULL"; Punct ")"; Punct ";"] by (vm_compute; reflexivity).
  reflexivity.
Qed.

Lemma all_chars_count (f : ascii -> bool) (c : ascii) (s : string) :
  f c = false -> all_chars f s = true -> count_char c s = 0.
Proof.
  intros Hc. induction s as [|a s IH]; [reflexivity|].
  cbn [all_chars count_char]. intros H. apply andb_prop in H. destruct H as [Ha Hs].
  destruct (Ascii.eqb_spec a c) as [->|_]; [congruence|]. now apply IH.
Qed.

Lemma identifier_chars (s : string) :
  identifier s = true -> all_chars identifier_char s = true.
Proof. unfold identifier. intros H. now apply andb_prop in H. Qed.

Lemma identifier_backtick_free (s : string) :
  identifier s = true -> count_char backtick s = 0.
Proof.
  intros H. apply (all_chars_count identifier_char); [reflexivity|].
  now apply identifier_chars.
Qed.

Lemma identifier_quote_free (s : string) :
  identifier s = true -> quote_free s.
Proof.
  intros H. apply (all_chars_count identifier_char); [reflexivity|].
  now apply identifier_chars.
Qed.

Lemma until_some (c : ascii) (s u r : string) :
  until c s = Some (u, r) -> s = u ++ String c r.
Proof.
  revert u. induction s as [|a s IH]; intros u H; [discriminate|].
  cbn [until] in H. destruct (Ascii.eqb_spec a c) as [->|_].
  - injection H as <- <-. reflexivity.
  - destruct (until c s) as [[u' r']|]; [|discriminate].
    injection H as <- <-. cbn [append]. f_equal. now apply IH.
Qed.

Lemma table_reference_quote_free (s : string) :
  table_reference s = true -> quote_free s.
Proof.
  unfold table_reference, quote_free.
  destruct (until "." s) as [[a r]|] eqn:Ha; [|discriminate].
  destruct (until "." r) as [[b c]|] eqn:Hb; [|discriminate].
  intros H. apply andb_prop in H. destruct H as [H Hc].
  apply andb_prop in H. destruct H as [Ha' Hb'].
  apply until_some in Ha, Hb. subst s r.
  rewrite count_char_app. cbn [count_char]. rewrite count_char_app. cbn [count_char].
  rewrite (identifier_quote_free a Ha'), (identifier_quote_free b Hb'),
          (identifier_quote_free c Hc).
  reflexivity.
Qed.

Lemma key_columns_quote_free (ks : list string) :
  Forall (fun col => key_column col = true) ks -> Forall quote_free ks.
Proof.
  intros H. eapply Forall_impl; [|exact H]. intros col Hc.
  unfold key_column in Hc. apply andb_prop in Hc. destruct Hc as [_ Hq].
  now apply Nat.eqb_eq in Hq.
Qed.

Lemma keyword_count_app (w : string) (l l' : list token) :
  keyword_count w (l ++ l') = keyword_count w l + keyword_count w l'.
Proof. unfold keyword_count. now rewrite filter_app, length_app. Qed.

Lemma keyword_count_more (w : string) (cols : list string) :
  keyword_count w (more_tokens cols) = 0.
Proof. induction cols as [|c cols IH]; [reflexivity|exact IH]. Qed.

Lemma keyword_count_array (w : string) (cols : list string) :
  keyword_count w (array_tokens cols) = 0.
Proof.
  unfold array_tokens. destruct cols as [|c cols]; [reflexivity|].
  change (keyword_count w (Punct lbracket :: (Literal c :: more_tokens cols) ++ [Punct rbracket]))
    with (keyword_count w (more_tokens cols ++ [Punct rbracket])).
  now rewrite keyword_count_app, keyword_count_more.
Qed.

Lemma names_more (cols : list string) : names (more_tokens cols) = [].
Proof. induction cols as [|c cols IH]; [reflexivity|exact IH]. Qed.

Lemma names_array (cols : list string) : names (array_tokens cols) = [].
Proof.
  unfold array_tokens, names. destruct cols as [|c cols]; [reflexivity|].
  cbn [flat_map app]. rewrite flat_map_app. fold (names (more_tokens cols)).
  now rewrite names_more.
Qed.

Lemma arrays_more (cols : list string) (rest : list token) :
  arrays true (more_tokens cols ++ Punct rbracket :: rest) =
  cols :: arrays false rest.
Proof.
  induction cols as [|c cols IH]; [reflexivity|].
  cbn [more_tokens flat_map app]. fold (more_tokens cols).
  cbn [arrays]. simpl. rewrite IH. reflexivity.
Qed.

Lemma arrays_array (cols : list string) (rest : list token) :
  arrays false (array_tokens cols ++ rest) = cols :: arrays false rest.
Proof.
  unfold array_tokens. destruct cols as [|c cols]; [reflexivity|].
  cbn [app arrays]. simpl. rewrite <- app_assoc. cbn [app].
  rewrite arrays_more. reflexivity.
Qed.

(** C3: for every valid input the statement reads as one call: its
    tokens are the word [CALL], the back-quoted name
    project.dataset.procedure, and in parentheses the two table
    literals, the bracketed key columns and [NULL].  So [CALL] stands
    exactly once as a keyword, there is exactly one back-quoted name,
    and exactly one bracketed array, holding one quoted element per key
    column in the order given. *)
Theorem statement_reads_as_one_call (p d n t s : string) (ks : list string)
    (o : option Options) :
  valid_input p d n t s ks ->
  exists stmt,
    build_call_statement p d n t s ks o = Returned stmt /\
    tokens stmt = statement_tokens p d n t s ks /\
    keyword_count "CALL" (tokens stmt) = 1 /\
    names (tokens stmt) = [p ++ "." ++ d ++ "." ++ n] /\
    arrays false (tokens stmt) = [ks].
Proof.
  intros (Ip & Id & In' & Tt & Ts & _ & Hk).
  assert (E : tokens (sql_call_statement p d n t s ks) = statement_tokens p d n t s ks).
  { apply tokens_of_statement.
    - now apply identifier_backtick_free.
    - now apply identifier_backtick_free.
    - now apply identifier_backtick_free.
    - now apply table_reference_quote_free.
    - now apply table_reference_quote_free.
    - now apply key_columns_quote_free. }
  eexists. split; [reflexivity|]. rewrite E. split; [reflexivity|].
  unfold statement_tokens. split; [|split].
  - rewrite !keyword_count_app, keyword_count_array.
    unfold keyword_count. cbn [filter length]. vm_compute. reflexivity.
  - unfold names. rewrite !flat_map_app. fold (names (array_tokens ks)).
    rewrite names_array. reflexivity.
  - remember (array_tokens ks ++ [Punct ","; Word "NULL"; Punct ")"; Punct ";"])%list
      as rest eqn:Hrest.
    simpl. subst rest. rewrite arrays_array. reflexivity.
Qed.

(** C3 on a procedure and a table whose names contain the letters of
    [CALL], and a key column holding a back quote, a bracket and
    dashes. *)
Lemma statement_reads_as_one_call_example :
  exists stmt,
    build_call_statement "my-proj" "ds" "usp_RECALL_merge" "my-proj.ds.CALLS"
                         "my-proj.ds.source" ["id"; "a`b]--x"] None = Returned stmt /\
    tokens stmt = statement_tokens "my-proj" "ds" "usp_RECALL_merge" "my-proj.ds.CALLS"
                         "my-proj.ds.source" ["id"; "a`b]--x"] /\
    keyword_count "CALL" (tokens stmt) = 1 /\
    names (tokens stmt) = ["my-proj.ds.usp_RECALL_merge"] /\
    arrays false (tokens stmt) = [["id"; "a`b]--x"]].
Proof.
  apply (statement_reads_as_one_call "my-proj" "ds" "usp_RECALL_merge" "my-proj.ds.CALLS"
           "my-proj.ds.source" ["id"; "a`b]--x"] None).
  unfold valid_input.
  repeat (split; [vm_compute; reflexivity|]).
  split; [discriminate|].
  repeat constructor; vm_compute; reflexivity.
Defined.

(** * Further properties of the script *)

Lemma append_inj_l (a b c : string) : a ++ b = a ++ c -> b = c.
Proof. induction a as [|x a IH]; cbn; intros H; [exact H|]. injection H as H. auto. Qed.

(** ** The array literal as an encoding of the key columns *)

Lemma elements_quote_free (s : string) :
  forall st l, elements st s = Some l -> Forall quote_free l.
Proof.
  induction s as [|a r IH]; intros st l H.
  - destruct st; cbn in H; try discriminate; injection H as <-; constructor.
  - destruct st; cbn [elements] in H.
    + destruct (Ascii.eqb a quote_char); [eauto|discriminate].
    + destruct (Ascii.eqb a quote_char) eqn:Ha.
      * destruct (elements AfterElement r) as [l'|] eqn:Hr; [|discriminate].
        injection H as <-. constructor; [reflexivity|eauto].
      * destruct (elements InElement r) as [[|e l']|] eqn:Hr; try discriminate.
        injection H as <-. apply IH in Hr. inversion Hr as [|? ? He Hl]; subst.
        constructor; [|exact Hl].
        unfold quote_free in *. cbn [count_char]. rewrite Ha. exact He.
    + destruct (Ascii.eqb a ","%char); [eauto|discriminate].
    + destruct (Ascii.eqb a " "%char); [eauto|discriminate].
    + destruct (Ascii.eqb a quote_char); [eauto|discriminate].
Qed.

Lemma count_char_join (c : ascii) (cols : list string) :
  count_char c ", '" = 0 ->
  count_char c (String.concat ", " (map (fun x => "'" ++ x ++ "'") cols)) =
  total (count_char c) cols.
Proof.
  intros Hc. destruct cols as [|x cols]; [reflexivity|].
  rewrite join_cons, total_cons, !count_char_app.
  rewrite (count_char_more_elements c cols Hc).
  destruct (separator_foreign c Hc) as (_ & _ & Hq).
  cbn [count_char]. rewrite Hq. lia.
Qed.

Lemma array_literal_body (cols : list string) :
  Forall bracket_free cols ->
  between lbracket rbracket (key_columns_sql_array cols) =
  Some (String.concat ", " (map (fun x => "'" ++ x ++ "'") cols)).
Proof.
  intros Hb. unfold key_columns_sql_array.
  set (body := String.concat ", " (map (fun x => "'" ++ x ++ "'") cols)).
  change ("[" ++ body ++ "]") with ("" ++ String lbracket (body ++ String rbracket "")).
  apply between_found; [reflexivity|].
  subst body. rewrite count_char_join by reflexivity.
  now apply total_zero.
Qed.

(** X1: for key columns without a closing bracket, the array literal
    reads back as exactly the columns it was built from if and only if
    no column holds a single quote. *)
Theorem array_literal_round_trip (cols : list string) :
  Forall bracket_free cols ->
  (array_literal_elements (key_columns_sql_array cols) = Some cols
   <-> Forall quote_free cols).
Proof.
  intros Hb. unfold array_literal_elements.
  rewrite array_literal_body by exact Hb. split.
  - apply elements_quote_free.
  - apply elements_join.
Qed.

(** X1 on the columns id and region. *)
Lemma array_literal_round_trip_example :
  array_literal_elements (key_columns_sql_array ["id"; "region"]) = Some ["id"; "region"]
  <-> Forall quote_free ["id"; "region"].
Proof.
  apply (array_literal_round_trip ["id"; "region"]).
  repeat constructor; vm_compute; reflexivity.
Defined.

Lemma append_inj_r_char (a b : string) (c : ascii) :
  a ++ String c "" = b ++ String c "" -> a = b.
Proof.
  revert b. induction a as [|x a IH]; intros [|y b] H; cbn in H.
  - reflexivity.
  - injection H as -> H. destruct b; discriminate H.
  - injection H as -> H. destruct a; discriminate H.
  - injection H as -> H. f_equal. auto.
Qed.

(** X2: two different lists of quote-free key columns never render as
    the same array literal. *)
Theorem key_columns_sql_array_injective (cols cols' : list string) :
  Forall quote_free cols -> Forall quote_free cols' ->
  cols <> cols' ->
  key_columns_sql_array cols <> key_columns_sql_array cols'.
Proof.
  intros Hq Hq' Hne H. apply Hne. unfold key_columns_sql_array in H.
  apply (append_inj_l "[") in H. apply append_inj_r_char in H.
  apply elements_join in Hq, Hq'. rewrite H in Hq. congruence.
Qed.

(** X2 on two one-column lists. *)
Lemma key_columns_sql_array_injective_example :
  key_columns_sql_array ["id"] <> key_columns_sql_array ["region"].
Proof.
  apply (key_columns_sql_array_injective ["id"] ["region"]).
  - repeat constructor; vm_compute; reflexivity.
  - repeat constructor; vm_compute; reflexivity.
  - discriminate.
Defined.

(** X3: with single quotes allowed in a column the rendering is not
    injective: lists of different lengths can give the same literal. *)
Theorem key_columns_sql_array_collision :
  exists cols cols',
    length cols <> length cols' /\
    key_columns_sql_array cols = key_columns_sql_array cols'.
Proof.
  exists ["a', 'b"], ["a"; "b"]. split; [discriminate|]. vm_compute. reflexivity.
Qed.

(** ** What the values add to the statement *)

Lemma count_quote_more_elements (cols : list string) :
  count_char quote_char (more_elements cols) =
  2 * length cols + total (count_char quote_char) cols.
Proof.
  induction cols as [|x cols IH]; [reflexivity|].
  cbn [more_elements fold_right]. fold (more_elements cols).
  rewrite total_cons, !count_char_app, IH. cbn [length]. simpl. lia.
Qed.

Lemma count_quote_array (cols : list string) :
  count_char quote_char (key_columns_sql_array cols) =
  2 * length cols + total (count_char quote_char) cols.
Proof.
  destruct cols as [|x cols]; [reflexivity|].
  rewrite key_columns_sql_array_cons, total_cons, !count_char_app.
  rewrite count_quote_more_elements. cbn [length]. simpl. lia.
Qed.

Lemma count_LF_statement (p d n t s : string) (ks : list string) :
  count_char LF (sql_call_statement p d n t s ks) =
  8 + count_char LF p + count_char LF d + count_char LF n +
  count_char LF t + count_char LF s + total (count_char LF) ks.
Proof. count_char_statement. Qed.

Lemma count_quote_statement (p d n t s : string) (ks : list string) :
  count_char quote_char (sql_call_statement p d n t s ks) =
  6 + 2 * length ks + count_char quote_char p + count_char quote_char d +
  count_char quote_char n + count_char quote_char t + count_char quote_char s +
  total (count_char quote_char) ks.
Proof.
  unfold sql_call_statement.
  rewrite !count_char_app, count_quote_array. simpl. lia.
Qed.

(** X4: whatever the inputs, the statement holds one [CALL], two back
    quotes, one bracket of each kind, eight line breaks and six single
    quotes plus two per key column of its own, and beyond those exactly
    the occurrences the input values bring. *)
Theorem marker_counts_additive (p d n t s : string) (ks : list string) :
  let stmt := sql_call_statement p d n t s ks in
  let brought (f : string -> nat) := f p + f d + f n + f t + f s + total f ks in
  count_sub "CALL" stmt = 1 + brought (count_sub "CALL") /\
  count_char backtick stmt = 2 + brought (count_char backtick) /\
  count_char lbracket stmt = 1 + brought (count_char lbracket) /\
  count_char rbracket stmt = 1 + brought (count_char rbracket) /\
  count_char LF stmt = 8 + brought (count_char LF) /\
  count_char quote_char stmt = 6 + 2 * length ks + brought (count_char quote_char).
Proof.
  cbv zeta.
  rewrite count_sub_CALL_statement, count_backtick_statement,
    count_lbracket_statement, count_rbracket_statement,
    count_LF_statement, count_quote_statement.
  repeat split; lia.
Qed.

(** ** The statement without its comments *)

















(** ** Tables derived from the project and the dataset *)

Lemma marker_free_table (p d name : string) :
  marker_free p -> marker_free d -> marker_free ("." ++ name) ->
  marker_free (p ++ "." ++ d ++ "." ++ name).
Proof.
  intros (Cp & Bp & Lp & Rp) (Cd & Bd & Ld & Rd) (Cn & Bn & Ln & Rn).
  unfold marker_free. rewrite !count_char_app.
  rewrite !count_char_app in Bn, Ln, Rn.
  split; [|lia].
  cbn [append] in *.
  rewrite (count_sub_sep "."%char) by reflexivity.
  cbn [count_sub]. rewrite prefix_cons. cbn [Ascii.eqb Bool.eqb andb].
  rewrite (count_sub_sep "."%char) by reflexivity.
  lia.
Qed.

(** X6: with the two tables derived from the project and the dataset
    as the script derives them, a project, dataset, procedure and key
    columns free of markers (and columns free of quotes) are enough for
    a statement with one [CALL], the procedure's name between the back
    quotes, an array that reads back as the key columns, and the two
    table literals in the procedure's own project and dataset; target
    and source are never the same table. *)
Theorem configured_statement_well_formed (p d n : string) (ks : list string) :
  marker_free p -> marker_free d -> marker_free n ->
  Forall marker_free ks -> Forall quote_free ks ->
  let stmt := configured_statement p d n ks in
  count_sub "CALL" stmt = 1 /\
  between backtick backtick stmt = Some (p ++ "." ++ d ++ "." ++ n) /\
  array_literal_elements stmt = Some ks /\
  contains ("'" ++ p ++ "." ++ d ++ ".target_customers',") stmt = true /\
  contains ("'" ++ p ++ "." ++ d ++ ".staging_customers',") stmt = true /\
  Tables.TARGET_TABLE p d <> Tables.SOURCE_TABLE p d.
Proof.
  intros Hp Hd Hn Hks Hq. cbv zeta.
  assert (Ht : marker_free (Tables.TARGET_TABLE p d))
    by (apply marker_free_table; try assumption; vm_compute; auto).
  assert (Hs : marker_free (Tables.SOURCE_TABLE p d))
    by (apply marker_free_table; try assumption; vm_compute; auto).
  destruct Hp as (Cp & Bp & Lp & Rp), Hd as (Cd & Bd & Ld & Rd),
           Hn as (Cn & Bn & Ln & Rn), Ht as (Ct & Bt & Lt & Rt),
           Hs as (Cs & Bs & Ls & Rs).
  assert (Ck : total (count_sub "CALL") ks = 0)
    by (apply total_zero; eapply Forall_impl; [|exact Hks]; now intros ? (? & _)).
  assert (Rk : total (count_char rbracket) ks = 0)
    by (apply total_zero; eapply Forall_impl; [|exact Hks]; now intros ? (_ & _ & _ & ?)).
  unfold configured_statement.
  split; [rewrite count_sub_CALL_statement; lia|].
  split; [now apply between_backticks|].
  split.
  { unfold array_literal_elements.
    rewrite between_brackets by assumption. now apply elements_join. }
  split.
  { unfold sql_call_statement, Tables.TARGET_TABLE.
    rewrite ?append_assoc. find_sub. }
  split.
  { unfold sql_call_statement, Tables.SOURCE_TABLE.
    rewrite ?append_assoc. find_sub. }
  unfold Tables.TARGET_TABLE, Tables.SOURCE_TABLE. intros H.
  apply append_inj_l in H. apply (append_inj_l ".") in H.
  apply append_inj_l in H. discriminate H.
Qed.

(** X6 on the script's own constants. *)
Lemma configured_statement_script :
  count_sub "CALL" Script.sql_call_statement = 1 /\
  between backtick backtick Script.sql_call_statement =
    Some (Script.GCP_PROJECT_ID ++ "." ++ Script.SP_DATASET ++ "." ++ Script.SP_NAME) /\
  array_literal_elements Script.sql_call_statement = Some Script.KEY_COLUMNS /\
  contains ("'" ++ Script.GCP_PROJECT_ID ++ "." ++ Script.SP_DATASET ++ ".target_customers',")
           Script.sql_call_statement = true /\
  contains ("'" ++ Script.GCP_PROJECT_ID ++ "." ++ Script.SP_DATASET ++ ".staging_customers',")
           Script.sql_call_statement = true /\
  Script.TARGET_TABLE <> Script.SOURCE_TABLE.
Proof.
  apply (configured_statement_well_formed
           Script.GCP_PROJECT_ID Script.SP_DATASET Script.SP_NAME Script.KEY_COLUMNS).
  - vm_compute. repeat split; reflexivity.
  - vm_compute. repeat split; reflexivity.
  - vm_compute. repeat split; reflexivity.
  - repeat constructor; vm_compute; reflexivity.
  - repeat constructor; vm_compute; reflexivity.
Defined.

(** ** The procedure name *)

(** X7: the three parts of the procedure's name are joined by dots
    unchecked, so a dot inside one of them moves the boundary: different
    projects, datasets and procedures give the same statement. *)
Theorem dotted_names_collide (a b c n t s : string) (ks : list string) :
  sql_call_statement (a ++ "." ++ b) c n t s ks =
  sql_call_statement a (b ++ "." ++ c) n t s ks /\
  sql_call_statement a b (c ++ "." ++ n) t s ks =
  sql_call_statement a (b ++ "." ++ c) n t s ks.
Proof. unfold sql_call_statement. split; norm_app; reflexivity. Qed.

(** X8: when project, dataset and procedure hold no back quote and
    project and dataset hold no dot, the three can be read back from
    the statement. *)
Theorem procedure_read_back (p d n t s : string) (ks : list string) :
  count_char backtick p = 0 -> count_char backtick d = 0 ->
  count_char backtick n = 0 -> dot_free p -> dot_free d ->
  procedure_of (sql_call_statement p d n t s ks) = Some (p, d, n).
Proof.
  intros Bp Bd Bn Dp Dd. unfold procedure_of.
  rewrite between_backticks by assumption.
  change (p ++ "." ++ d ++ "." ++ n) with (p ++ String "." (d ++ String "." n)).
  rewrite (until_found "."%char p) by exact Dp.
  rewrite (until_found "."%char d) by exact Dd.
  reflexivity.
Qed.

(** X8 on a hyphenated project. *)
Lemma procedure_read_back_example :
  procedure_of (sql_call_statement "my-proj" "ds" "usp_generic_merge"
                  "my-proj.ds.target" "my-proj.ds.source" ["id"]) =
  Some ("my-proj", "ds", "usp_generic_merge").
Proof.
  apply (procedure_read_back "my-proj" "ds" "usp_generic_merge"
           "my-proj.ds.target" "my-proj.ds.source" ["id"]);
    vm_compute; reflexivity.
Defined.
